(** * server/models.py: credentials, enumerations, game sessions

    A shallow embedding of the model layer of the chess server and the
    properties of its credential hasher, its enumerated field type, the
    game constructor, the start transition and the turn counter.

    Python objects live on a heap of references, because a [TurnCounter]
    holds a back reference to the game that owns it.  Exceptions do not
    roll back what a method has already written, so the effect monad keeps
    the state next to an error result.  The collaborators the module
    imports (hashlib, the database behind peewee) enter as interfaces. *)

From Stdlib Require Import ZArith NArith Bool.
From Stdlib.Strings Require Import Byte.
From stdpp Require Import base option list gmap.

Open Scope Z_scope.

(** ** Exceptions and results *)

Inductive Exception :=
  | ValueError
  | TypeError
  | UnicodeEncodeError
  | ReferenceError
  | DatabaseError (code : Z).

Inductive Result (A : Type) :=
  | Ok (a : A)
  | Raise (e : Exception).
Arguments Ok {A} a.
Arguments Raise {A} e.

Definition is_ok {A} (r : Result A) : bool :=
  match r with Ok _ => true | Raise _ => false end.

(** ** Enumerations

    [enum.auto()] numbers the members of a class from 1 in the order of
    their declaration. *)

Class PyEnum (E : Type) := {
  members : list E;
  value : E -> Z
}.

Inductive Winner := W_GAME_NOT_COMPLETE | W_HOME | W_AWAY | W_DRAW.

Inductive Conclusion :=
  | GAME_NOT_COMPLETE | CHECKMATE | RESIGN | TIME | STALEMATE
  | THREEFOLD_REPETITION | FIFTY_MOVE_RULE | AGREED_DRAW.

Inductive PieceType := PAWN | ROOK | KNIGHT | BISHOP | QUEEN | KING.

Inductive Side := HOME | AWAY.

#[export] Instance Winner_enum : PyEnum Winner := {|
  members := [W_GAME_NOT_COMPLETE; W_HOME; W_AWAY; W_DRAW];
  value w := match w with
             | W_GAME_NOT_COMPLETE => 1 | W_HOME => 2 | W_AWAY => 3 | W_DRAW => 4
             end
|}.

#[export] Instance Conclusion_enum : PyEnum Conclusion := {|
  members := [GAME_NOT_COMPLETE; CHECKMATE; RESIGN; TIME; STALEMATE;
              THREEFOLD_REPETITION; FIFTY_MOVE_RULE; AGREED_DRAW];
  value c := match c with
             | GAME_NOT_COMPLETE => 1 | CHECKMATE => 2 | RESIGN => 3 | TIME => 4
             | STALEMATE => 5 | THREEFOLD_REPETITION => 6
             | FIFTY_MOVE_RULE => 7 | AGREED_DRAW => 8
             end
|}.

#[export] Instance PieceType_enum : PyEnum PieceType := {|
  members := [PAWN; ROOK; KNIGHT; BISHOP; QUEEN; KING];
  value p := match p with
             | PAWN => 1 | ROOK => 2 | KNIGHT => 3
             | BISHOP => 4 | QUEEN => 5 | KING => 6
             end
|}.

#[export] Instance Side_enum : PyEnum Side := {|
  members := [HOME; AWAY];
  value s := match s with HOME => 1 | AWAY => 2 end
|}.

#[export] Instance Side_eq_dec : EqDecision Side.
Proof. solve_decision. Defined.

(** [Side.__invert__] *)
Definition Side__invert__ (self : Side) : Side :=
  if decide (self = HOME) then AWAY else HOME.

(** Calling an enumeration class on a value, [options(number)]: the member
    that carries this value, [ValueError] when there is none.  [None] is
    the value of no member. *)
Definition enum_call {E} `{PyEnum E} (number : option Z) : Result E :=
  match number with
  | None => Raise ValueError
  | Some n =>
      match find (fun m => value m =? n) members with
      | Some m => Ok m
      | None => Raise ValueError
      end
  end.

(** [EnumField]: a small integer column whose Python side is a member of
    [options].  The inherited [python_value] of the integer field passes
    [None] through and leaves an integer as it is. *)
Module EnumField.

Definition super_python_value (raw : option Z) : option Z := raw.

Definition python_value (E : Type) `{PyEnum E} (raw : option Z) : Result E :=
  let number := super_python_value raw in
  enum_call number.

(** [db_value]: the [isinstance] test holds by typing. *)
Definition db_value {E} `{PyEnum E} (instance : E) : Z :=
  let number := value instance in
  number.

End EnumField.

(** ** Strings and bytes

    A Python [str] is a sequence of code points (below 0x110000), [bytes]
    a sequence of bytes. *)

Definition str := list N.
Definition bytes := list byte.

#[export] Instance byte_eq_dec : EqDecision byte := Byte.byte_eq_dec.

Definition byte_of_N (n : N) : byte :=
  default x00 (Byte.of_N (n mod 256)%N).

(** [str.encode()]: UTF-8, strict.  A surrogate code point has no
    encoding and raises [UnicodeEncodeError]. *)
Definition encode_char (c : N) : Result bytes :=
  (if c <? 0x80 then Ok [byte_of_N c]
   else if c <? 0x800 then
     Ok [byte_of_N (N.lor 0xC0 (N.shiftr c 6));
         byte_of_N (N.lor 0x80 (N.land c 0x3F))]
   else if (0xD800 <=? c) && (c <=? 0xDFFF) then Raise UnicodeEncodeError
   else if c <? 0x10000 then
     Ok [byte_of_N (N.lor 0xE0 (N.shiftr c 12));
         byte_of_N (N.lor 0x80 (N.land (N.shiftr c 6) 0x3F));
         byte_of_N (N.lor 0x80 (N.land c 0x3F))]
   else
     Ok [byte_of_N (N.lor 0xF0 (N.shiftr c 18));
         byte_of_N (N.lor 0x80 (N.land (N.shiftr c 12) 0x3F));
         byte_of_N (N.lor 0x80 (N.land (N.shiftr c 6) 0x3F));
         byte_of_N (N.lor 0x80 (N.land c 0x3F))])%N.

Fixpoint encode (s : str) : Result bytes :=
  match s with
  | [] => Ok []
  | c :: s' =>
      match encode_char c with
      | Raise e => Raise e
      | Ok b =>
          match encode s' with
          | Raise e => Raise e
          | Ok bs => Ok (b ++ bs)
          end
      end
  end.

(** [hmac.compare_digest]: equality of the two byte strings (its running
    time is not part of the model). *)
Definition compare_digest (a b : bytes) : bool := bool_decide (a = b).

(** Slices [hashed[:n]] and [hashed[n:]]: out of range they shorten, they
    never raise. *)
Definition slice_to (n : nat) (b : bytes) : bytes := take n b.
Definition slice_from (n : nat) (b : bytes) : bytes := drop n b.

(** The key derivation of hashlib,
    [pbkdf2_hmac(hash_name, password, salt, iterations)]. *)
Inductive HashName := sha3_256.

Class Hashlib := {
  pbkdf2_hmac : HashName -> bytes -> bytes -> N -> bytes
}.

(** ** Model objects *)

Definition timedelta := Z.
Definition datetime := Z.
Definition loc := nat.

Record User := {
  user_id : option Z;
  username : str;
  password_hash : bytes;
  email : str;
  email_verified : bool;
  elo : Z;
  avatar : option bytes;
  created_at : datetime
}.

(** [HashedPassword.__init__] and [TurnCounter.__init__] store their
    argument; the constructors of the records stand for them. *)
Record HashedPassword := { hashed_password : bytes }.

Record TurnCounter := { game : loc }.

(** A [Game] instance: the fields of the model ([None] where a field
    without a default was not given) and the plain attribute
    [turn_number], which is a [TurnCounter] or [None]. *)
Record Game := {
  id : option Z;
  host : option User;
  away : option User;
  current_turn : Side;
  _turn_number : Z;
  mode : Z;
  starting_time : option timedelta;
  time_per_turn : option timedelta;
  home_time : option timedelta;
  away_time : option timedelta;
  home_offering_draw : bool;
  away_offering_draw : bool;
  winner : Winner;
  conclusion_type : Conclusion;
  opened_at : datetime;
  last_turn : option datetime;
  started_at : option datetime;
  ended_at : option datetime;
  turn_number : option TurnCounter
}.

Definition set_id (v : option Z) (g : Game) : Game :=
  {| id := v; host := host g; away := away g;
     current_turn := current_turn g; _turn_number := _turn_number g;
     mode := mode g; starting_time := starting_time g;
     time_per_turn := time_per_turn g; home_time := home_time g;
     away_time := away_time g; home_offering_draw := home_offering_draw g;
     away_offering_draw := away_offering_draw g; winner := winner g;
     conclusion_type := conclusion_type g; opened_at := opened_at g;
     last_turn := last_turn g; started_at := started_at g;
     ended_at := ended_at g; turn_number := turn_number g |}.

Definition set_away (v : option User) (g : Game) : Game :=
  {| id := id g; host := host g; away := v;
     current_turn := current_turn g; _turn_number := _turn_number g;
     mode := mode g; starting_time := starting_time g;
     time_per_turn := time_per_turn g; home_time := home_time g;
     away_time := away_time g; home_offering_draw := home_offering_draw g;
     away_offering_draw := away_offering_draw g; winner := winner g;
     conclusion_type := conclusion_type g; opened_at := opened_at g;
     last_turn := last_turn g; started_at := started_at g;
     ended_at := ended_at g; turn_number := turn_number g |}.

Definition set_current_turn (v : Side) (g : Game) : Game :=
  {| id := id g; host := host g; away := away g;
     current_turn := v; _turn_number := _turn_number g;
     mode := mode g; starting_time := starting_time g;
     time_per_turn := time_per_turn g; home_time := home_time g;
     away_time := away_time g; home_offering_draw := home_offering_draw g;
     away_offering_draw := away_offering_draw g; winner := winner g;
     conclusion_type := conclusion_type g; opened_at := opened_at g;
     last_turn := last_turn g; started_at := started_at g;
     ended_at := ended_at g; turn_number := turn_number g |}.

Definition set__turn_number (v : Z) (g : Game) : Game :=
  {| id := id g; host := host g; away := away g;
     current_turn := current_turn g; _turn_number := v;
     mode := mode g; starting_time := starting_time g;
     time_per_turn := time_per_turn g; home_time := home_time g;
     away_time := away_time g; home_offering_draw := home_offering_draw g;
     away_offering_draw := away_offering_draw g; winner := winner g;
     conclusion_type := conclusion_type g; opened_at := opened_at g;
     last_turn := last_turn g; started_at := started_at g;
     ended_at := ended_at g; turn_number := turn_number g |}.

Definition set_home_time (v : option timedelta) (g : Game) : Game :=
  {| id := id g; host := host g; away := away g;
     current_turn := current_turn g; _turn_number := _turn_number g;
     mode := mode g; starting_time := starting_time g;
     time_per_turn := time_per_turn g; home_time := v;
     away_time := away_time g; home_offering_draw := home_offering_draw g;
     away_offering_draw := away_offering_draw g; winner := winner g;
     conclusion_type := conclusion_type g; opened_at := opened_at g;
     last_turn := last_turn g; started_at := started_at g;
     ended_at := ended_at g; turn_number := turn_number g |}.

Definition set_away_time (v : option timedelta) (g : Game) : Game :=
  {| id := id g; host := host g; away := away g;
     current_turn := current_turn g; _turn_number := _turn_number g;
     mode := mode g; starting_time := starting_time g;
     time_per_turn := time_per_turn g; home_time := home_time g;
     away_time := v; home_offering_draw := home_offering_draw g;
     away_offering_draw := away_offering_draw g; winner := winner g;
     conclusion_type := conclusion_type g; opened_at := opened_at g;
     last_turn := last_turn g; started_at := started_at g;
     ended_at := ended_at g; turn_number := turn_number g |}.

Definition set_last_turn (v : option datetime) (g : Game) : Game :=
  {| id := id g; host := host g; away := away g;
     current_turn := current_turn g; _turn_number := _turn_number g;
     mode := mode g; starting_time := starting_time g;
     time_per_turn := time_per_turn g; home_time := home_time g;
     away_time := away_time g; home_offering_draw := home_offering_draw g;
     away_offering_draw := away_offering_draw g; winner := winner g;
     conclusion_type := conclusion_type g; opened_at := opened_at g;
     last_turn := v; started_at := started_at g;
     ended_at := ended_at g; turn_number := turn_number g |}.

Definition set_started_at (v : option datetime) (g : Game) : Game :=
  {| id := id g; host := host g; away := away g;
     current_turn := current_turn g; _turn_number := _turn_number g;
     mode := mode g; starting_time := starting_time g;
     time_per_turn := time_per_turn g; home_time := home_time g;
     away_time := away_time g; home_offering_draw := home_offering_draw g;
     away_offering_draw := away_offering_draw g; winner := winner g;
     conclusion_type := conclusion_type g; opened_at := opened_at g;
     last_turn := last_turn g; started_at := v;
     ended_at := ended_at g; turn_number := turn_number g |}.

Definition set_turn_number (v : option TurnCounter) (g : Game) : Game :=
  {| id := id g; host := host g; away := away g;
     current_turn := current_turn g; _turn_number := _turn_number g;
     mode := mode g; starting_time := starting_time g;
     time_per_turn := time_per_turn g; home_time := home_time g;
     away_time := away_time g; home_offering_draw := home_offering_draw g;
     away_offering_draw := away_offering_draw g; winner := winner g;
     conclusion_type := conclusion_type g; opened_at := opened_at g;
     last_turn := last_turn g; started_at := started_at g;
     ended_at := ended_at g; turn_number := v |}.

(** The keyword arguments of the constructor, one optional entry per
    field: [None] when the keyword is absent.  For a field without a
    default, which reads as [None] when it was not given, [None] stands for
    the keyword given as [None] as well. *)
Record GameKwargs := {
  kw_id : option Z;
  kw_host : option User;
  kw_away : option User;
  kw_current_turn : option Side;
  kw__turn_number : option Z;
  kw_mode : option Z;
  kw_starting_time : option timedelta;
  kw_time_per_turn : option timedelta;
  kw_home_time : option timedelta;
  kw_away_time : option timedelta;
  kw_home_offering_draw : option bool;
  kw_away_offering_draw : option bool;
  kw_winner : option Winner;
  kw_conclusion_type : option Conclusion;
  kw_opened_at : option datetime;
  kw_last_turn : option datetime;
  kw_started_at : option datetime;
  kw_ended_at : option datetime
}.

(** The database behind [Model.save()]: it stores the row of a game and
    answers with its primary key, or raises. *)
Class Persistence (DB : Type) := {
  db_save : Game -> DB -> Result (Z * DB)
}.

(** ** The world and the effect monad

    The world holds the heap of game objects, the database, the wall clock
    read by [datetime.datetime.now] and the entropy source read by
    [os.urandom].  A computation returns a result or an exception together
    with the world it leaves behind: what was written before an exception
    stays written. *)

Record World (DB : Type) := {
  heap : gmap loc Game;
  db : DB;
  clock : nat -> datetime;
  ticks : nat;
  entropy : nat -> byte;
  drawn : nat
}.
Arguments heap {DB} w.
Arguments db {DB} w.
Arguments clock {DB} w.
Arguments ticks {DB} w.
Arguments entropy {DB} w.
Arguments drawn {DB} w.

Definition set_heap {DB} (h : gmap loc Game) (w : World DB) : World DB :=
  {| heap := h; db := db w; clock := clock w; ticks := ticks w;
     entropy := entropy w; drawn := drawn w |}.

Definition set_db {DB} (d : DB) (w : World DB) : World DB :=
  {| heap := heap w; db := d; clock := clock w; ticks := ticks w;
     entropy := entropy w; drawn := drawn w |}.

Definition set_ticks {DB} (n : nat) (w : World DB) : World DB :=
  {| heap := heap w; db := db w; clock := clock w; ticks := n;
     entropy := entropy w; drawn := drawn w |}.

Definition set_drawn {DB} (n : nat) (w : World DB) : World DB :=
  {| heap := heap w; db := db w; clock := clock w; ticks := ticks w;
     entropy := entropy w; drawn := n |}.

Definition M (DB : Type) (A : Type) : Type := World DB -> Result A * World DB.

#[export] Instance Result_ret : MRet Result := fun A a => Ok a.
#[export] Instance Result_bind : MBind Result := fun A B k r =>
  match r with
  | Ok a => k a
  | Raise e => Raise e
  end.

#[export] Instance M_ret {DB} : MRet (M DB) := fun A a w => (Ok a, w).
#[export] Instance M_bind {DB} : MBind (M DB) := fun A B k m w =>
  match m w with
  | (Ok a, w') => k a w'
  | (Raise e, w') => (Raise e, w')
  end.

Definition raise {DB A} (e : Exception) : M DB A := fun w => (Raise e, w).

Definition lift {DB A} (r : Result A) : M DB A := fun w => (r, w).

(** [n] successive calls of [c], stopping at the first exception. *)
Fixpoint times {DB} (n : nat) (c : M DB unit) : M DB unit :=
  match n with
  | O => mret tt
  | S n' => c;; times n' c
  end.

Section Operations.
Context {DB : Type} {persistence : Persistence DB} {hashlib : Hashlib}.

Local Abbreviation M := (M DB).

(** *** Heap access *)

(** Python has no dangling reference; [deref] answers [ReferenceError] on
    one to be total. *)
Definition deref (l : loc) : M Game := fun w =>
  match heap w !! l with
  | Some g => (Ok g, w)
  | None => (Raise ReferenceError, w)
  end.

Definition assign (l : loc) (g : Game) : M unit := fun w =>
  (Ok tt, set_heap (<[l := g]> (heap w)) w).

(** An attribute assignment [obj.field = ...] or [obj.field += ...]. *)
Definition update (l : loc) (f : Game -> Game) : M unit :=
  g ← deref l; assign l (f g).

Definition alloc (g : Game) : M loc := fun w =>
  let l := fresh (dom (heap w)) in
  (Ok l, set_heap (<[l := g]> (heap w)) w).

(** *** Collaborators *)

(** [datetime.datetime.now()] *)
Definition now : M datetime := fun w =>
  (Ok (clock w (ticks w)), set_ticks (S (ticks w)) w).

(** [os.urandom(n)] *)
Definition urandom (n : nat) : M bytes := fun w =>
  (Ok (map (entropy w) (seq (drawn w) n)), set_drawn (drawn w + n)%nat w).

(** [Model.save()]: writes the row, and the key the database answers
    with becomes the [id] of the instance. *)
Definition write_row (self : loc) (g : Game) : M unit := fun w =>
  match db_save g (db w) with
  | Ok (pk, d) =>
      (Ok tt, set_heap (<[self := set_id (Some pk) g]> (heap w)) (set_db d w))
  | Raise e => (Raise e, w)
  end.

Definition save (self : loc) : M unit :=
  g ← deref self; write_row self g.

(** *** Credential hasher *)

Definition hash_password (password : str) : M bytes :=
  salt ← urandom 32;
  pw ← lift (encode password);
  let key := pbkdf2_hmac sha3_256 pw salt 100000 in
  mret (salt ++ key).

Definition check_password (password : str) (hashed : bytes) : Result bool :=
  let salt := slice_to 32 hashed in
  let key := slice_from 32 hashed in
  pw ← encode password;
  let attempt_key := pbkdf2_hmac sha3_256 pw salt 100000 in
  mret (compare_digest key attempt_key).

Definition HashedPassword__eq__ (self : HashedPassword) (password : str)
  : Result bool :=
  check_password password (hashed_password self).

(** The [password] property of a user and its setter. *)
Definition User_password (self : User) : HashedPassword :=
  {| hashed_password := password_hash self |}.

Definition User_password_setter (self : User) (password : str) : M User :=
  h ← hash_password password;
  mret {| user_id := user_id self; username := username self;
          password_hash := h; email := email self;
          email_verified := email_verified self; elo := elo self;
          avatar := avatar self; created_at := created_at self |}.

(** *** Turn counter *)

Definition TurnCounter__int__ (self : TurnCounter) : M Z :=
  g ← deref (game self); mret (_turn_number g).

Definition TurnCounter__iadd__ (self : TurnCounter) (value : Z) : M unit :=
  if decide (value ≠ 1) then raise ValueError
  else
    update (game self) (fun g => set__turn_number (_turn_number g + 1) g);;
    update (game self) (fun g => set_current_turn (Side__invert__ (current_turn g)) g);;
    save (game self).

(** The statement [game.turn_number += value].  Python calls [__iadd__]
    on the attribute and binds the attribute to what the call returns;
    [__iadd__] above has no [return], so that is [None].  On [None] the
    statement raises [TypeError]. *)
Definition augassign_turn_number (self : loc) (value : Z) : M unit :=
  g ← deref self;
  match turn_number g with
  | Some counter =>
      TurnCounter__iadd__ counter value;;
      update self (set_turn_number None)
  | None => raise TypeError
  end.

(** *** Game *)

(** [Model.__init__] of peewee starts from the defaults of the fields,
    calling a default that is callable, then does one [setattr] per
    keyword.  A field without a default reads as [None]. *)
Definition get_default_dict : M Game :=
  opened ← now;
  mret {| id := None; host := None; away := None;
          current_turn := HOME;
          _turn_number := 1;
          mode := 1;
          starting_time := None; time_per_turn := None;
          home_time := None; away_time := None;
          home_offering_draw := false;
          away_offering_draw := false;
          winner := W_GAME_NOT_COMPLETE;
          conclusion_type := GAME_NOT_COMPLETE;
          opened_at := opened;
          last_turn := None; started_at := None; ended_at := None;
          turn_number := None |}.

Definition setattr_kwargs (kwargs : GameKwargs) (g : Game) : Game :=
  {| id := kw_id kwargs;
     host := kw_host kwargs;
     away := kw_away kwargs;
     current_turn := default (current_turn g) (kw_current_turn kwargs);
     _turn_number := default (_turn_number g) (kw__turn_number kwargs);
     mode := default (mode g) (kw_mode kwargs);
     starting_time := kw_starting_time kwargs;
     time_per_turn := kw_time_per_turn kwargs;
     home_time := kw_home_time kwargs;
     away_time := kw_away_time kwargs;
     home_offering_draw :=
       default (home_offering_draw g) (kw_home_offering_draw kwargs);
     away_offering_draw :=
       default (away_offering_draw g) (kw_away_offering_draw kwargs);
     winner := default (winner g) (kw_winner kwargs);
     conclusion_type := default (conclusion_type g) (kw_conclusion_type kwargs);
     opened_at := default (opened_at g) (kw_opened_at kwargs);
     last_turn := kw_last_turn kwargs;
     started_at := kw_started_at kwargs;
     ended_at := kw_ended_at kwargs;
     turn_number := turn_number g |}.

Definition Model__init__ (kwargs : GameKwargs) : M Game :=
  data ← get_default_dict;
  mret (setattr_kwargs kwargs data).

Definition Game__init__ (kwargs : GameKwargs) : M loc :=
  obj ← Model__init__ kwargs;
  self ← alloc obj;
  update self (set_turn_number (Some {| game := self |}));;
  update self (fun g => set_home_time (starting_time g) g);;
  update self (fun g => set_away_time (starting_time g) g);;
  mret self.

Definition start_game (self : loc) (away : User) : M unit :=
  update self (set_away (Some away));;
  (t ← now; update self (set_started_at (Some t)));;
  (t ← now; update self (set_last_turn (Some t)));;
  save self.

End Operations.

(** ** Instances of the collaborators *)

(** *** PBKDF2 over HMAC

    hashlib is not part of the repository.  This instance follows the
    construction it implements, PBKDF2 (RFC 8018, section 5.2) with HMAC
    (RFC 2104) as pseudo-random function, over an arbitrary digest: HMAC
    hashes a key longer than a block and pads it with zero bytes to the
    block length; the derived key has the length of the digest, so it is
    the first block of PBKDF2. *)
Section PBKDF2.
Variable digest : bytes -> bytes.
Variable block_size : nat.

Definition xor_byte (a b : byte) : byte :=
  byte_of_N (N.lxor (Byte.to_N a) (Byte.to_N b)).

Definition xor_bytes (a b : bytes) : bytes := zip_with xor_byte a b.

Definition hmac_key (K : bytes) : bytes :=
  let K' := if (block_size <? length K)%nat then digest K else K in
  K' ++ replicate (block_size - length K') x00.

Definition hmac (K text : bytes) : bytes :=
  let K0 := hmac_key K in
  digest (map (xor_byte x5c) K0 ++ digest (map (xor_byte x36) K0 ++ text)).

Definition INT_32_BE (i : N) : bytes :=
  [byte_of_N (N.shiftr i 24); byte_of_N (N.shiftr i 16);
   byte_of_N (N.shiftr i 8); byte_of_N i].

Definition pbkdf2_round (P : bytes) (TU : bytes * bytes) : bytes * bytes :=
  let U := hmac P (snd TU) in (xor_bytes (fst TU) U, U).

Definition pbkdf2_F (P S : bytes) (c i : N) : bytes :=
  let U1 := hmac P (S ++ INT_32_BE i) in
  fst (N.iter (c - 1) (pbkdf2_round P) (U1, U1)).

Definition rfc8018 : Hashlib :=
  {| pbkdf2_hmac := fun _ P S c => pbkdf2_F P S c 1 |}.
End PBKDF2.

(** A digest of 32 bytes to run the construction on: output byte [i] is a
    rolling sum of the message bytes started at [i]. *)
Definition fold_digest (m : bytes) : bytes :=
  map (fun i =>
         byte_of_N (foldl (fun acc b => (31 * acc + Byte.to_N b + 1) mod 256)%N
                          (N.of_nat i) m))
      (seq 0 32).

(** The block length of SHA3-256 is 136 bytes. *)
Definition fold_hashlib : Hashlib := rfc8018 fold_digest 136.

(** *** A database in memory

    It accepts every row: a game without a key is inserted under the next
    free key, a game with a key replaces the row of that key. *)
Record MemDB := {
  rows : gmap Z Game;
  next_id : Z
}.

Definition mem_save (g : Game) (d : MemDB) : Result (Z * MemDB) :=
  match id g with
  | Some pk => Ok (pk, {| rows := <[pk := g]> (rows d); next_id := next_id d |})
  | None =>
      let pk := next_id d in
      Ok (pk, {| rows := <[pk := set_id (Some pk) g]> (rows d);
                 next_id := pk + 1 |})
  end.

#[export] Instance MemDB_persistence : Persistence MemDB :=
  {| db_save := mem_save |}.

(** *** Sample data *)

Definition sample_user (pk : Z) (name : str) : User :=
  {| user_id := Some pk; username := name; password_hash := [];
     email := name; email_verified := false; elo := 1000; avatar := None;
     created_at := 0 |}.

Definition U1 : User := sample_user 1 [117; 49]%N.
Definition U2 : User := sample_user 2 [117; 50]%N.
Definition U3 : User := sample_user 3 [117; 51]%N.

Definition empty_world : World MemDB :=
  {| heap := ∅;
     db := {| rows := ∅; next_id := 1 |};
     clock := fun n => 1000 + Z.of_nat n;
     ticks := 0;
     entropy := fun n => byte_of_N (N.of_nat n);
     drawn := 0 |}.

Definition no_kwargs : GameKwargs :=
  {| kw_id := None; kw_host := None; kw_away := None;
     kw_current_turn := None; kw__turn_number := None; kw_mode := None;
     kw_starting_time := None; kw_time_per_turn := None;
     kw_home_time := None; kw_away_time := None;
     kw_home_offering_draw := None; kw_away_offering_draw := None;
     kw_winner := None; kw_conclusion_type := None; kw_opened_at := None;
     kw_last_turn := None; kw_started_at := None; kw_ended_at := None |}.

(** [Game(host=U1, starting_time=600s, time_per_turn=5s)] *)
Definition scenario_kwargs : GameKwargs :=
  {| kw_id := None; kw_host := Some U1; kw_away := None;
     kw_current_turn := None; kw__turn_number := None; kw_mode := None;
     kw_starting_time := Some 600; kw_time_per_turn := Some 5;
     kw_home_time := None; kw_away_time := None;
     kw_home_offering_draw := None; kw_away_offering_draw := None;
     kw_winner := None; kw_conclusion_type := None; kw_opened_at := None;
     kw_last_turn := None; kw_started_at := None; kw_ended_at := None |}.

(** A row read back from the database after the clocks have run down. *)
Definition stored_kwargs : GameKwargs :=
  {| kw_id := Some 7; kw_host := Some U1; kw_away := Some U2;
     kw_current_turn := Some AWAY; kw__turn_number := Some 12;
     kw_mode := Some 1;
     kw_starting_time := Some 600; kw_time_per_turn := Some 5;
     kw_home_time := Some 431; kw_away_time := Some 388;
     kw_home_offering_draw := Some false; kw_away_offering_draw := Some true;
     kw_winner := Some W_GAME_NOT_COMPLETE;
     kw_conclusion_type := Some GAME_NOT_COMPLETE; kw_opened_at := Some 10;
     kw_last_turn := Some 50; kw_started_at := Some 20; kw_ended_at := None |}.

(** The world after the scenario game has been created. *)
Definition scenario_world : World MemDB :=
  snd (Game__init__ scenario_kwargs empty_world).

Definition scenario_game : loc := 0%nat.

(** ** Objects named in the statements *)

(** The object a game becomes by one advance: turn number plus one, the
    other side to move. *)
Definition advanced (g : Game) : Game :=
  set_current_turn (Side__invert__ (current_turn g))
    (set__turn_number (_turn_number g + 1) g).

(** The object the constructor leaves at its fresh reference: the fields
    as [Model.__init__] set them, the bound turn counter, and both clocks
    put to the starting time. *)
Definition constructed (self : loc) (kwargs : GameKwargs) (opened : datetime)
  : Game :=
  {| id := kw_id kwargs;
     host := kw_host kwargs;
     away := kw_away kwargs;
     current_turn := default HOME (kw_current_turn kwargs);
     _turn_number := default 1 (kw__turn_number kwargs);
     mode := default 1 (kw_mode kwargs);
     starting_time := kw_starting_time kwargs;
     time_per_turn := kw_time_per_turn kwargs;
     home_time := kw_starting_time kwargs;
     away_time := kw_starting_time kwargs;
     home_offering_draw := default false (kw_home_offering_draw kwargs);
     away_offering_draw := default false (kw_away_offering_draw kwargs);
     winner := default W_GAME_NOT_COMPLETE (kw_winner kwargs);
     conclusion_type := default GAME_NOT_COMPLETE (kw_conclusion_type kwargs);
     opened_at := default opened (kw_opened_at kwargs);
     last_turn := kw_last_turn kwargs;
     started_at := kw_started_at kwargs;
     ended_at := kw_ended_at kwargs;
     turn_number := Some {| game := self |} |}.

(** The object a game becomes by [start_game]: the away user and the two
    time stamps written over whatever was there. *)
Definition started (away_user : User) (t1 t2 : datetime) (g : Game) : Game :=
  set_last_turn (Some t2) (set_started_at (Some t1) (set_away (Some away_user) g)).

(** The salt that the next call of [hash_password] draws in world [w]. *)
Definition next_salt {DB} (w : World DB) : bytes :=
  map (entropy w) (seq (drawn w) 32).

(** The world after the scenario game has been started with [U2]. *)
Definition playing_world : World MemDB :=
  snd (start_game scenario_game U2 scenario_world).

(** ** Further objects named in the statements *)

(** Values of no fixed type, as [EnumField.db_value] may receive them. *)
Inductive EnumClass :=
  Side_class | Winner_class | Conclusion_class | PieceType_class.

Inductive PyValue :=
  | PyNone
  | PyInt (n : Z)
  | PySide (s : Side)
  | PyWinner (w : Winner)
  | PyConclusion (c : Conclusion)
  | PyPieceType (p : PieceType).

(** [type(v)] when [v] is a member of an enumeration. *)
Definition class_of (v : PyValue) : option EnumClass :=
  match v with
  | PySide _ => Some Side_class
  | PyWinner _ => Some Winner_class
  | PyConclusion _ => Some Conclusion_class
  | PyPieceType _ => Some PieceType_class
  | PyNone | PyInt _ => None
  end.

(** [EnumField.db_value] with its [isinstance] test: a value that is no
    member of [options] raises [TypeError], a member gives its number. *)
Definition db_value_any (options : EnumClass) (instance : PyValue) : Result Z :=
  match options, instance with
  | Side_class, PySide s => Ok (EnumField.db_value s)
  | Winner_class, PyWinner w => Ok (EnumField.db_value w)
  | Conclusion_class, PyConclusion c => Ok (EnumField.db_value c)
  | PieceType_class, PyPieceType p => Ok (EnumField.db_value p)
  | _, _ => Raise TypeError
  end.

(** The side to move agrees with the turn number: HOME moves on the odd
    turns, AWAY on the even ones. *)
Definition in_step (g : Game) : bool :=
  bool_decide (current_turn g = if Z.odd (_turn_number g) then HOME else AWAY).

(** A database that is down: every write raises. *)
Inductive OfflineDB := offline.

#[export] Instance OfflineDB_persistence : Persistence OfflineDB :=
  {| db_save := fun _ _ => Raise (DatabaseError 1) |}.

(** The scenario game, constructed while the database is down. *)
Definition offline_world : World OfflineDB :=
  snd (Game__init__ scenario_kwargs
         {| heap := ∅; db := offline;
            clock := fun n => 1000 + Z.of_nat n; ticks := 0;
            entropy := fun n => byte_of_N (N.of_nat n); drawn := 0 |}).

(** Two games on one heap: the scenario game and a second one of [U3]. *)
Definition two_games_world : World MemDB :=
  snd (Game__init__
         {| kw_id := None; kw_host := Some U3; kw_away := None;
            kw_current_turn := None; kw__turn_number := None; kw_mode := None;
            kw_starting_time := Some 300; kw_time_per_turn := Some 2;
            kw_home_time := None; kw_away_time := None;
            kw_home_offering_draw := None; kw_away_offering_draw := None;
            kw_winner := None; kw_conclusion_type := None;
            kw_opened_at := None; kw_last_turn := None;
            kw_started_at := None; kw_ended_at := None |}
         scenario_world).

Definition sample_password : str := [112; 119]%N.

(** The hash of the sample password in the empty world. *)
Definition sample_hash : bytes :=
  next_salt empty_world
  ++ pbkdf2_hmac (Hashlib:=fold_hashlib) sha3_256 [x70; x77]
       (next_salt empty_world) 100000.

(** [U1] after its password has been set to the sample password in the
    empty world. *)
Definition hashed_U1 : User :=
  {| user_id := user_id U1; username := username U1;
     password_hash := sample_hash; email := email U1;
     email_verified := email_verified U1; elo := elo U1;
     avatar := avatar U1; created_at := created_at U1 |}.

(** * Properties *)

(** ** The effect monad *)

Section MonadFacts.
Context {DB : Type}.

Lemma bind_ok {A B} (m : M DB A) (k : A -> M DB B) w a w' :
  m w = (Ok a, w') -> (m ≫= k) w = k a w'.
Proof. intros Hm. unfold mbind, M_bind. by rewrite Hm. Qed.

Lemma bind_raise {A B} (m : M DB A) (k : A -> M DB B) w e w' :
  m w = (Raise e, w') -> (m ≫= k) w = (Raise e, w').
Proof. intros Hm. unfold mbind, M_bind. by rewrite Hm. Qed.

Lemma bind_ok_inv {A B} (m : M DB A) (k : A -> M DB B) w b w2 :
  (m ≫= k) w = (Ok b, w2) ->
  exists a w1, m w = (Ok a, w1) /\ k a w1 = (Ok b, w2).
Proof.
  unfold mbind, M_bind. destruct (m w) as [[a|e] w1]; intros Hk.
  - by exists a, w1.
  - discriminate.
Qed.

Lemma times_S n (c : M DB unit) w :
  times (S n) c w = (c ≫= fun _ => times n c) w.
Proof. reflexivity. Qed.
End MonadFacts.

(** ** Enumerated field *)

Section EnumFacts.
Context {E : Type} `{PyEnum E}.

Lemma enum_call_member (n : Z) (m : E) :
  enum_call (Some n) = Ok m -> In m members /\ value m = n.
Proof.
  unfold enum_call. destruct (find _ _) as [m'|] eqn:Hfind; [|done].
  intros [= <-]. apply find_some in Hfind as [Hin Hv].
  split; [done|]. by apply Z.eqb_eq.
Qed.

Lemma enum_call_no_member (n : Z) :
  n ∉ value <$> members -> enum_call (E:=E) (Some n) = Raise ValueError.
Proof.
  intros Hout. unfold enum_call.
  destruct (find _ _) as [m|] eqn:Hfind; [|done].
  apply find_some in Hfind as [Hin Hv]. apply Z.eqb_eq in Hv.
  destruct Hout. apply list_elem_of_fmap. exists m.
  split; [done|]. by apply list_elem_of_In.
Qed.
End EnumFacts.

Lemma enum_values :
  value <$> members (E:=Side) = [1; 2] /\
  value <$> members (E:=Winner) = [1; 2; 3; 4] /\
  value <$> members (E:=Conclusion) = [1; 2; 3; 4; 5; 6; 7; 8] /\
  value <$> members (E:=PieceType) = [1; 2; 3; 4; 5; 6].
Proof. repeat split. Qed.

Lemma python_value_null E `{PyEnum E} :
  EnumField.python_value E None = Raise ValueError.
Proof. reflexivity. Qed.

(** C6. For each of the enumerations Side, Winner, Conclusion and
    PieceType, decoding an integer code that is the value of none of its
    members raises ValueError: no member is returned, so no default, null
    or coerced value either. *)
Theorem python_value_out_of_range (code : Z) :
  (code ∉ value <$> members (E:=Side) ->
   EnumField.python_value Side (Some code) = Raise ValueError) /\
  (code ∉ value <$> members (E:=Winner) ->
   EnumField.python_value Winner (Some code) = Raise ValueError) /\
  (code ∉ value <$> members (E:=Conclusion) ->
   EnumField.python_value Conclusion (Some code) = Raise ValueError) /\
  (code ∉ value <$> members (E:=PieceType) ->
   EnumField.python_value PieceType (Some code) = Raise ValueError).
Proof.
  unfold EnumField.python_value, EnumField.super_python_value.
  repeat split; apply enum_call_no_member.
Qed.

Lemma not_in_values (code : Z) (l : list Z) :
  forallb (fun v => negb (v =? code)) l = true -> code ∉ l.
Proof.
  intros Hall Hin. apply list_elem_of_In in Hin.
  rewrite forallb_forall in Hall. specialize (Hall _ Hin).
  rewrite Z.eqb_refl in Hall. discriminate.
Qed.

Lemma python_value_out_of_range_witness :
  EnumField.python_value Side (Some 0) = Raise ValueError /\
  EnumField.python_value Winner (Some 5) = Raise ValueError /\
  EnumField.python_value Conclusion (Some 9) = Raise ValueError /\
  EnumField.python_value PieceType (Some (-1)) = Raise ValueError.
Proof.
  split; [|split; [|split]].
  - apply (python_value_out_of_range 0). by apply not_in_values.
  - apply (python_value_out_of_range 5). by apply not_in_values.
  - apply (python_value_out_of_range 9). by apply not_in_values.
  - apply (python_value_out_of_range (-1)). by apply not_in_values.
Defined.

Example python_value_in_range :
  EnumField.python_value Side (Some 2) = Ok AWAY /\
  EnumField.python_value Conclusion (Some 6) = Ok THREEFOLD_REPETITION.
Proof. split; reflexivity. Qed.

(** ** Heap access *)

Section HeapFacts.
Context {DB : Type} {persistence : Persistence DB}.

Lemma deref_Some l g (w : World DB) :
  heap w !! l = Some g -> deref l w = (Ok g, w).
Proof. intros Hl. unfold deref. by rewrite Hl. Qed.

Lemma update_Some l f g (w : World DB) :
  heap w !! l = Some g ->
  update l f w = (Ok tt, set_heap (<[l := f g]> (heap w)) w).
Proof.
  intros Hl. unfold update. by rewrite (bind_ok _ _ _ _ _ (deref_Some _ _ _ Hl)).
Qed.

Lemma set_heap_twice l g1 g2 (w : World DB) :
  set_heap (<[l := g2]> (heap (set_heap (<[l := g1]> (heap w)) w)))
           (set_heap (<[l := g1]> (heap w)) w)
  = set_heap (<[l := g2]> (heap w)) w.
Proof. unfold set_heap. simpl. by rewrite insert_insert_eq. Qed.

Lemma lookup_set_heap l g (w : World DB) :
  heap (set_heap (<[l := g]> (heap w)) w) !! l = Some g.
Proof. simpl. apply lookup_insert_eq. Qed.

(** What [save] does once the object is known. *)
Lemma save_Some l g (w : World DB) :
  heap w !! l = Some g -> save l w = write_row l g w.
Proof.
  intros Hl. unfold save. by rewrite (bind_ok _ _ _ _ _ (deref_Some _ _ _ Hl)).
Qed.

Lemma write_row_Ok l g (w : World DB) pk d :
  db_save g (db w) = Ok (pk, d) ->
  write_row l g w
  = (Ok tt, set_heap (<[l := set_id (Some pk) g]> (heap w)) (set_db d w)).
Proof. intros Hs. unfold write_row. by rewrite Hs. Qed.

Lemma write_row_Ok_inv l g (w w' : World DB) :
  write_row l g w = (Ok tt, w') ->
  exists pk d, db_save g (db w) = Ok (pk, d) /\
    w' = set_heap (<[l := set_id (Some pk) g]> (heap w)) (set_db d w).
Proof.
  unfold write_row. destruct (db_save g (db w)) as [[pk d]|e]; [|done].
  intros [= <-]. by exists pk, d.
Qed.

Lemma write_row_Raise l g (w : World DB) e :
  db_save g (db w) = Raise e -> write_row l g w = (Raise e, w).
Proof. intros Hs. unfold write_row. by rewrite Hs. Qed.
End HeapFacts.

(** ** Turn counter *)

Lemma invert_involutive (s : Side) : Side__invert__ (Side__invert__ s) = s.
Proof. by destruct s. Qed.

Section TurnFacts.
Context {DB : Type} {persistence : Persistence DB}.

Lemma iadd_one l g (w : World DB) :
  heap w !! l = Some g ->
  TurnCounter__iadd__ {| game := l |} 1 w
  = write_row l (advanced g) (set_heap (<[l := advanced g]> (heap w)) w).
Proof.
  intros Hl. unfold TurnCounter__iadd__. simpl.
  rewrite (bind_ok _ _ _ _ _ (update_Some _ _ _ _ Hl)).
  rewrite (bind_ok _ _ _ _ _ (update_Some _ _ _ _ (lookup_set_heap _ _ _))).
  rewrite set_heap_twice.
  apply save_Some, lookup_set_heap.
Qed.

(** An advance that succeeds leaves the advanced object on the heap, with
    the key the database answered. *)
Lemma iadd_one_Ok l g (w w' : World DB) :
  heap w !! l = Some g ->
  TurnCounter__iadd__ {| game := l |} 1 w = (Ok tt, w') ->
  exists pk, heap w' !! l = Some (set_id (Some pk) (advanced g)).
Proof.
  intros Hl. rewrite (iadd_one _ _ _ Hl).
  intros (pk & d & _ & ->)%write_row_Ok_inv.
  exists pk. simpl. apply lookup_insert_eq.
Qed.

Lemma advances l (N : nat) : forall (w w' : World DB) g,
  heap w !! l = Some g ->
  times N (TurnCounter__iadd__ {| game := l |} 1) w = (Ok tt, w') ->
  exists g', heap w' !! l = Some g' /\
    _turn_number g' = _turn_number g + Z.of_nat N /\
    current_turn g' = if Nat.even N then current_turn g
                      else Side__invert__ (current_turn g).
Proof.
  induction N as [|N IH]; intros w w' g Hl Hrun.
  - injection Hrun as <-. exists g. split; [done|]. split; [lia|done].
  - rewrite times_S in Hrun.
    apply bind_ok_inv in Hrun as ([] & w1 & Hstep & Hrest).
    destruct (iadd_one_Ok _ _ _ _ Hl Hstep) as [pk Hl1].
    destruct (IH _ _ _ Hl1 Hrest) as (g' & Hl' & Hn & Hs).
    exists g'. split; [done|]. split.
    + rewrite Hn. simpl. lia.
    + rewrite Hs, Nat.even_succ, <- Nat.negb_even. simpl.
      destruct (Nat.even N); simpl; [done|apply invert_involutive].
Qed.

(** The advances do succeed when the database accepts the rows. *)
Lemma advances_succeed l (N : nat) : forall (w : World DB) g,
  (forall g d, is_ok (db_save g d) = true) ->
  heap w !! l = Some g ->
  exists w', times N (TurnCounter__iadd__ {| game := l |} 1) w = (Ok tt, w').
Proof.
  induction N as [|N IH]; intros w g Hdb Hl.
  - by exists w.
  - specialize (Hdb (advanced g)
                    (db (set_heap (<[l := advanced g]> (heap w)) w))) as Hacc.
    destruct (db_save _ _) as [[pk d]|e] eqn:Hs; [|done].
    pose proof (iadd_one _ _ _ Hl) as Hstep.
    rewrite (write_row_Ok _ _ _ _ _ Hs) in Hstep.
    rewrite times_S, (bind_ok _ _ _ _ _ Hstep).
    eapply IH; [done|]. simpl. apply lookup_insert_eq.
Qed.

(** C2. After N successful turn advances of a session that stands at
    turn number 1 with HOME to move, the turn number is 1+N and the side
    to move is HOME when N is even, AWAY when N is odd. *)
Theorem turn_after_advances l (N : nat) (w w' : World DB) g :
  heap w !! l = Some g ->
  _turn_number g = 1 ->
  current_turn g = HOME ->
  times N (TurnCounter__iadd__ {| game := l |} 1) w = (Ok tt, w') ->
  exists g', heap w' !! l = Some g' /\
    _turn_number g' = 1 + Z.of_nat N /\
    current_turn g' = if Nat.even N then HOME else AWAY.
Proof.
  intros Hl Hn Hs Hrun.
  destruct (advances _ _ _ _ _ Hl Hrun) as (g' & Hl' & Hn' & Hs').
  exists g'. rewrite Hn in Hn'. rewrite Hs in Hs'. done.
Qed.

(** C3. An advance by any integer other than 1 raises ValueError and
    leaves the world as it was: the turn number and the side to move of
    the session, like everything else, are unchanged. *)
Theorem iadd_rejects (self : TurnCounter) (value : Z) (w : World DB) :
  value <> 1 ->
  TurnCounter__iadd__ self value w = (Raise ValueError, w).
Proof.
  intros Hv. unfold TurnCounter__iadd__. by rewrite decide_True.
Qed.
End TurnFacts.

(** The scenario: started with [U2] and advanced three times, the game
    stands at turn 4 with AWAY to move; an advance by 2 then fails and
    leaves it there. *)
Example scenario_three_advances :
  let counter := {| game := scenario_game |} in
  let w3 := snd (times 3 (TurnCounter__iadd__ counter 1) playing_world) in
  fst (times 3 (TurnCounter__iadd__ counter 1) playing_world) = Ok tt /\
  fst (TurnCounter__int__ counter w3) = Ok 4 /\
  (current_turn <$> heap w3 !! scenario_game) = Some AWAY /\
  TurnCounter__iadd__ counter 2 w3 = (Raise ValueError, w3).
Proof. vm_compute. repeat split. Qed.

(** Advancing by the statement [game.turn_number += 1] works once: it
    leaves [None] in the attribute, and the next statement raises. *)
Example augassign_twice :
  let w1 := snd (augassign_turn_number scenario_game 1 playing_world) in
  fst (augassign_turn_number scenario_game 1 playing_world) = Ok tt /\
  (_turn_number <$> heap w1 !! scenario_game) = Some 2 /\
  (turn_number <$> heap w1 !! scenario_game) = Some None /\
  augassign_turn_number scenario_game 1 w1 = (Raise TypeError, w1).
Proof. vm_compute. repeat split. Qed.

Lemma turn_after_advances_witness :
  exists g',
    heap (snd (times 3 (TurnCounter__iadd__ {| game := scenario_game |} 1)
                     scenario_world)) !! scenario_game = Some g' /\
    _turn_number g' = 1 + Z.of_nat 3 /\
    current_turn g' = if Nat.even 3 then HOME else AWAY.
Proof.
  eapply (turn_after_advances scenario_game 3 scenario_world).
  - vm_compute. reflexivity.
  - reflexivity.
  - reflexivity.
  - vm_compute. reflexivity.
Defined.

Lemma iadd_rejects_witness :
  TurnCounter__iadd__ {| game := scenario_game |} 0 scenario_world
    = (Raise ValueError, scenario_world) /\
  TurnCounter__iadd__ {| game := scenario_game |} 2 scenario_world
    = (Raise ValueError, scenario_world) /\
  TurnCounter__iadd__ {| game := scenario_game |} (-1) scenario_world
    = (Raise ValueError, scenario_world).
Proof.
  split; [|split].
  - apply (iadd_rejects {| game := scenario_game |} 0 scenario_world). lia.
  - apply (iadd_rejects {| game := scenario_game |} 2 scenario_world). lia.
  - apply (iadd_rejects {| game := scenario_game |} (-1) scenario_world). lia.
Defined.

(** ** Game constructor *)

Section GameFacts.
Context {DB : Type} {persistence : Persistence DB}.

Lemma Game__init__run (kwargs : GameKwargs) (w : World DB) :
  Game__init__ kwargs w
  = (Ok (fresh (dom (heap w))),
     set_heap (<[fresh (dom (heap w)) :=
                   constructed (fresh (dom (heap w))) kwargs
                               (clock w (ticks w))]> (heap w))
              (set_ticks (S (ticks w)) w)).
Proof.
  unfold Game__init__.
  erewrite bind_ok by reflexivity.
  erewrite bind_ok by reflexivity.
  erewrite bind_ok by (apply update_Some, lookup_insert_eq).
  erewrite bind_ok by (apply update_Some, lookup_insert_eq).
  erewrite bind_ok by (apply update_Some, lookup_insert_eq).
  unfold mret, M_ret, set_heap. simpl.
  rewrite !insert_insert_eq. reflexivity.
Qed.

(** The constructor never raises, and its object is new on the heap. *)
Lemma Game__init__fresh (kwargs : GameKwargs) (w : World DB) :
  exists l w', Game__init__ kwargs w = (Ok l, w') /\ heap w !! l = None.
Proof.
  eexists _, _. split; [apply Game__init__run|].
  apply not_elem_of_dom, is_fresh.
Qed.

(** C7. A newly created game session, that is one constructed without
    the keywords away, current_turn and _turn_number, has home_time and
    away_time equal to its starting_time, turn number 1, HOME to move
    and no away user. *)
Theorem new_game_initial_state (kwargs : GameKwargs) (w : World DB) :
  kw_away kwargs = None ->
  kw_current_turn kwargs = None ->
  kw__turn_number kwargs = None ->
  exists l w' g,
    Game__init__ kwargs w = (Ok l, w') /\
    heap w' !! l = Some g /\
    starting_time g = kw_starting_time kwargs /\
    home_time g = starting_time g /\
    away_time g = starting_time g /\
    _turn_number g = 1 /\
    current_turn g = HOME /\
    away g = None.
Proof.
  intros Ha Hc Hn. eexists _, _, _.
  split; [apply Game__init__run|].
  split; [apply lookup_insert_eq|].
  simpl. rewrite Ha, Hc, Hn. done.
Qed.

(** C10. Whatever keywords the constructor receives, a stored row
    included, the object it builds has home_time and away_time equal to
    the starting_time given, not to the home_time and away_time given;
    every other field holds the value supplied for it, or its default
    when none was supplied. *)
Theorem constructor_overwrites_clocks (kwargs : GameKwargs) (w : World DB) :
  exists l w' g,
    Game__init__ kwargs w = (Ok l, w') /\
    heap w' !! l = Some g /\
    home_time g = kw_starting_time kwargs /\
    away_time g = kw_starting_time kwargs /\
    id g = kw_id kwargs /\
    host g = kw_host kwargs /\
    away g = kw_away kwargs /\
    current_turn g = default HOME (kw_current_turn kwargs) /\
    _turn_number g = default 1 (kw__turn_number kwargs) /\
    mode g = default 1 (kw_mode kwargs) /\
    starting_time g = kw_starting_time kwargs /\
    time_per_turn g = kw_time_per_turn kwargs /\
    home_offering_draw g = default false (kw_home_offering_draw kwargs) /\
    away_offering_draw g = default false (kw_away_offering_draw kwargs) /\
    winner g = default W_GAME_NOT_COMPLETE (kw_winner kwargs) /\
    conclusion_type g
      = default GAME_NOT_COMPLETE (kw_conclusion_type kwargs) /\
    opened_at g = default (clock w (ticks w)) (kw_opened_at kwargs) /\
    last_turn g = kw_last_turn kwargs /\
    started_at g = kw_started_at kwargs /\
    ended_at g = kw_ended_at kwargs.
Proof.
  eexists _, _, _.
  split; [apply Game__init__run|].
  split; [apply lookup_insert_eq|].
  simpl. repeat split.
Qed.
End GameFacts.

Lemma new_game_initial_state_witness :
  exists l w' g,
    Game__init__ scenario_kwargs empty_world = (Ok l, w') /\
    heap w' !! l = Some g /\
    starting_time g = Some 600 /\
    home_time g = starting_time g /\
    away_time g = starting_time g /\
    _turn_number g = 1 /\
    current_turn g = HOME /\
    away g = None.
Proof.
  apply (new_game_initial_state scenario_kwargs empty_world); reflexivity.
Defined.

(** Without a starting time the clocks are [None], like it. *)
Example no_kwargs_clocks :
  (home_time <$> heap (snd (Game__init__ no_kwargs empty_world)) !! 0%nat)
    = Some None /\
  (starting_time <$> heap (snd (Game__init__ no_kwargs empty_world)) !! 0%nat)
    = Some None.
Proof. vm_compute. split; reflexivity. Qed.

(** A row with run-down clocks comes back with full clocks. *)
Example stored_row_clocks_reset :
  (home_time <$> heap (snd (Game__init__ stored_kwargs empty_world)) !! 0%nat)
    = Some (Some 600) /\
  (away_time <$> heap (snd (Game__init__ stored_kwargs empty_world)) !! 0%nat)
    = Some (Some 600) /\
  kw_home_time stored_kwargs = Some 431 /\
  kw_away_time stored_kwargs = Some 388.
Proof. vm_compute. repeat split. Qed.

(** ** Start transition *)

Section StartFacts.
Context {DB : Type} {persistence : Persistence DB}.

(** The three assignments need no condition on the object; what is left
    is the write to the database. *)
Lemma start_game_run l u g (w : World DB) :
  heap w !! l = Some g ->
  start_game l u w
  = write_row l (started u (clock w (ticks w)) (clock w (S (ticks w))) g)
      (set_heap
         (<[l := started u (clock w (ticks w)) (clock w (S (ticks w))) g]>
            (heap w))
         (set_ticks (S (S (ticks w))) w)).
Proof.
  intros Hl. unfold start_game.
  erewrite bind_ok by (apply update_Some, Hl).
  erewrite bind_ok; cycle 1.
  { erewrite bind_ok by reflexivity.
    apply update_Some. simpl. apply lookup_insert_eq. }
  erewrite bind_ok; cycle 1.
  { erewrite bind_ok by reflexivity.
    apply update_Some. simpl. apply lookup_insert_eq. }
  unfold set_heap, set_ticks. simpl. rewrite !insert_insert_eq.
  apply save_Some. simpl. apply lookup_insert_eq.
Qed.

Lemma start_game_accepted l u g (w : World DB) pk d :
  heap w !! l = Some g ->
  db_save (started u (clock w (ticks w)) (clock w (S (ticks w))) g) (db w)
    = Ok (pk, d) ->
  exists w',
    start_game l u w = (Ok tt, w') /\
    heap w' !! l
      = Some (set_id (Some pk)
                (started u (clock w (ticks w)) (clock w (S (ticks w))) g)) /\
    db w' = d.
Proof.
  intros Hl Hs. rewrite (start_game_run _ _ _ _ Hl).
  erewrite write_row_Ok by exact Hs.
  eexists. split; [reflexivity|]. split; [|reflexivity].
  simpl. apply lookup_insert_eq.
Qed.

(** C8. On an open session (away unset) the start operation, when the
    database accepts the row with the new values, returns normally;
    afterwards away is the user given, started_at and last_turn hold
    time stamps, the database is the one that took the row, and the
    session reads as in progress (away is not null). *)
Theorem start_game_open l u g (w : World DB) pk d :
  heap w !! l = Some g ->
  away g = None ->
  db_save (started u (clock w (ticks w)) (clock w (S (ticks w))) g) (db w)
    = Ok (pk, d) ->
  exists w' g',
    start_game l u w = (Ok tt, w') /\
    heap w' !! l = Some g' /\
    away g' = Some u /\
    started_at g' = Some (clock w (ticks w)) /\
    last_turn g' = Some (clock w (S (ticks w))) /\
    db w' = d /\
    away g' <> None.
Proof.
  intros Hl _ Hs.
  destruct (start_game_accepted _ _ _ _ _ _ Hl Hs) as (w' & Hrun & Hl' & Hd).
  exists w', (set_id (Some pk)
                (started u (clock w (ticks w)) (clock w (S (ticks w))) g)).
  repeat split; done.
Qed.

(** C1, as the code has it.  The start operation does not look at
    away.  On a session whose away user is already set it returns
    normally when the database accepts the row, and has then replaced
    the away user by the one given and stamped started_at and last_turn
    anew. *)
Theorem start_game_started l u u0 g (w : World DB) pk d :
  heap w !! l = Some g ->
  away g = Some u0 ->
  db_save (started u (clock w (ticks w)) (clock w (S (ticks w))) g) (db w)
    = Ok (pk, d) ->
  exists w' g',
    start_game l u w = (Ok tt, w') /\
    heap w' !! l = Some g' /\
    away g' = Some u /\
    started_at g' = Some (clock w (ticks w)) /\
    last_turn g' = Some (clock w (S (ticks w))).
Proof.
  intros Hl _ Hs.
  destruct (start_game_accepted _ _ _ _ _ _ Hl Hs) as (w' & Hrun & Hl' & Hd).
  exists w', (set_id (Some pk)
                (started u (clock w (ticks w)) (clock w (S (ticks w))) g)).
  repeat split; done.
Qed.

(** The only exception of [start_game] on a live object is one of the
    database. *)
Lemma start_game_raises l u g (w w' : World DB) e :
  heap w !! l = Some g ->
  start_game l u w = (Raise e, w') ->
  db_save (started u (clock w (ticks w)) (clock w (S (ticks w))) g) (db w)
    = Raise e.
Proof.
  intros Hl. rewrite (start_game_run _ _ _ _ Hl). unfold write_row. simpl.
  destruct (db_save _ _) as [[pk d]|e']; [done|]. by intros [= -> _].
Qed.
End StartFacts.

Lemma start_game_open_witness :
  exists w' g',
    start_game scenario_game U2 scenario_world = (Ok tt, w') /\
    heap w' !! scenario_game = Some g' /\
    away g' = Some U2 /\
    started_at g' = Some 1001 /\
    last_turn g' = Some 1002 /\
    db w' = {| rows := {[ 1 := set_id (Some 1)
                                  (started U2 1001 1002
                                     (constructed 0%nat scenario_kwargs 1000)) ]};
               next_id := 2 |} /\
    away g' <> None.
Proof.
  eapply (start_game_open scenario_game U2 _ scenario_world 1).
  - vm_compute. reflexivity.
  - reflexivity.
  - vm_compute. reflexivity.
Defined.

Lemma start_game_started_witness :
  exists w' g',
    start_game scenario_game U3 playing_world = (Ok tt, w') /\
    heap w' !! scenario_game = Some g' /\
    away g' = Some U3 /\
    started_at g' = Some 1003 /\
    last_turn g' = Some 1004.
Proof.
  eapply (start_game_started scenario_game U3 U2 _ playing_world 1).
  - vm_compute. reflexivity.
  - reflexivity.
  - vm_compute. reflexivity.
Defined.

(** C1, as stated, fails: started a second time, the session does not
    raise; its away user, started_at and last_turn are replaced. *)
Lemma start_game_started_counterexample :
  (away <$> heap playing_world !! scenario_game) = Some (Some U2) /\
  (started_at <$> heap playing_world !! scenario_game) = Some (Some 1001) /\
  (last_turn <$> heap playing_world !! scenario_game) = Some (Some 1002) /\
  fst (start_game scenario_game U3 playing_world) = Ok tt /\
  (away <$> heap (snd (start_game scenario_game U3 playing_world))
              !! scenario_game) = Some (Some U3) /\
  (started_at <$> heap (snd (start_game scenario_game U3 playing_world))
              !! scenario_game) = Some (Some 1003) /\
  (last_turn <$> heap (snd (start_game scenario_game U3 playing_world))
              !! scenario_game) = Some (Some 1004).
Proof. vm_compute. repeat split. Qed.

(** ** Credential hasher *)

Lemma urandom_length {DB} (n : nat) (w : World DB) :
  length (map (entropy w) (seq (drawn w) n)) = n.
Proof. by rewrite length_map, length_seq. Qed.

Section CredentialFacts.
Context {DB : Type} {hashlib : Hashlib}.

Lemma next_salt_length (w : World DB) : length (next_salt w) = 32%nat.
Proof. apply urandom_length. Qed.

Lemma hash_password_run (password : str) pw (w : World DB) :
  encode password = Ok pw ->
  hash_password password w
  = (Ok (next_salt w ++ pbkdf2_hmac sha3_256 pw (next_salt w) 100000),
     set_drawn (drawn w + 32)%nat w).
Proof.
  intros Henc. unfold hash_password.
  erewrite bind_ok by reflexivity.
  erewrite bind_ok by (unfold lift; rewrite Henc; reflexivity).
  reflexivity.
Qed.

Lemma hash_password_unencodable (password : str) e (w : World DB) :
  encode password = Raise e ->
  hash_password password w = (Raise e, set_drawn (drawn w + 32)%nat w).
Proof.
  intros Henc. unfold hash_password.
  erewrite bind_ok by reflexivity.
  erewrite bind_raise by (unfold lift; rewrite Henc; reflexivity).
  reflexivity.
Qed.

(** Verification against a blob of a 32 byte salt followed by a key
    compares the key with the one derived from the candidate. *)
Lemma check_password_blob (password : str) pw (salt key : bytes) :
  encode password = Ok pw ->
  length salt = 32%nat ->
  check_password password (salt ++ key)
  = Ok (bool_decide (key = pbkdf2_hmac sha3_256 pw salt 100000)).
Proof.
  intros Henc Hlen. unfold check_password, slice_to, slice_from.
  rewrite Henc. simpl.
  by rewrite take_app_length', drop_app_length'.
Qed.

(** A blob is rejected when what follows its first 32 bytes has not the
    length of a derived key. *)
Lemma check_password_short (password : str) pw (hashed : bytes) :
  encode password = Ok pw ->
  (length hashed - 32)%nat
    <> length (pbkdf2_hmac sha3_256 pw (take 32 hashed) 100000) ->
  check_password password hashed = Ok false.
Proof.
  intros Henc Hlen. unfold check_password, slice_to, slice_from.
  rewrite Henc. simpl. unfold compare_digest.
  rewrite bool_decide_eq_false_2; [done|].
  intros Heq. apply Hlen. by rewrite <- Heq, length_drop.
Qed.

Lemma hash_password_Ok (p : str) (w w' : World DB) h :
  hash_password p w = (Ok h, w') ->
  exists pw,
    encode p = Ok pw /\
    h = next_salt w ++ pbkdf2_hmac sha3_256 pw (next_salt w) 100000 /\
    w' = set_drawn (drawn w + 32)%nat w.
Proof.
  destruct (encode p) as [pw|e] eqn:Henc.
  - rewrite (hash_password_run _ _ _ Henc). intros [= <- <-]. by exists pw.
  - by rewrite (hash_password_unencodable _ _ _ Henc).
Qed.

(** C4, as the code has it.  A password is verified by its own hash.
    Another password p' (one that encodes) is verified by the hash of p
    exactly when the key derived from p' under the salt of that hash is
    the key derived from p: it is rejected when the two keys differ and
    accepted when they coincide. *)
Theorem check_password_of_hash (p : str) (w w' : World DB) h :
  hash_password p w = (Ok h, w') ->
  check_password p h = Ok true /\
  exists pw,
    encode p = Ok pw /\
    forall (p' : str) pw',
      encode p' = Ok pw' ->
      check_password p' h
      = Ok (bool_decide (pbkdf2_hmac sha3_256 pw (take 32 h) 100000
                         = pbkdf2_hmac sha3_256 pw' (take 32 h) 100000)).
Proof.
  intros (pw & Henc & -> & _)%hash_password_Ok.
  pose proof (next_salt_length w) as Hlen.
  split.
  - rewrite (check_password_blob _ _ _ _ Henc Hlen).
    by rewrite bool_decide_eq_true_2.
  - exists pw. split; [done|]. intros p' pw' Henc'.
    rewrite (check_password_blob _ _ _ _ Henc' Hlen).
    by rewrite take_app_length'.
Qed.

(** C5, as the code has it.  When every derived key has 32 bytes,
    verification against a blob shorter than 64 bytes returns false for
    every password that encodes; it raises nothing. *)
Theorem check_password_malformed (p : str) pw (hashed : bytes) :
  (forall P S c, length (pbkdf2_hmac sha3_256 P S c) = 32%nat) ->
  encode p = Ok pw ->
  (length hashed < 64)%nat ->
  check_password p hashed = Ok false.
Proof.
  intros Hkey Henc Hlen.
  apply (check_password_short _ _ _ Henc). rewrite Hkey. lia.
Qed.

(** C9. Two hashes of the same password, one after the other: when
    their salts differ, as they do when the two draws of the entropy
    source differ, the two blobs differ, and each of them verifies the
    password. *)
Theorem hash_password_twice (p : str) (w w1 w2 : World DB) h1 h2 :
  hash_password p w = (Ok h1, w1) ->
  hash_password p w1 = (Ok h2, w2) ->
  map (entropy w) (seq (drawn w) 32)
    <> map (entropy w) (seq (drawn w + 32) 32) ->
  take 32 h1 <> take 32 h2 /\
  h1 <> h2 /\
  check_password p h1 = Ok true /\
  check_password p h2 = Ok true.
Proof.
  intros (pw & Henc & -> & ->)%hash_password_Ok.
  intros (pw2 & Henc2 & -> & _)%hash_password_Ok Hsalt.
  rewrite Henc in Henc2. injection Henc2 as <-.
  rewrite !take_app_length' by (by rewrite next_salt_length).
  split; [exact Hsalt|]. split.
  - intros Heq. apply app_inj_1 in Heq as [Heq _].
    + by apply Hsalt.
    + by rewrite !next_salt_length.
  - split.
    + rewrite (check_password_blob _ _ _ _ Henc (next_salt_length _)).
      by rewrite bool_decide_eq_true_2.
    + rewrite (check_password_blob _ _ _ _ Henc (next_salt_length _)).
      by rewrite bool_decide_eq_true_2.
Qed.
End CredentialFacts.

(** ** PBKDF2 over HMAC *)

Lemma N_iter_ext {A} (f g : A -> A) (n : N) (x : A) :
  (forall y, f y = g y) -> N.iter n f x = N.iter n g x.
Proof.
  intros Hfg. induction n as [|n IH] using N.peano_ind; [done|].
  by rewrite !N.iter_succ, IH, Hfg.
Qed.

Section PBKDF2Facts.
Variable digest : bytes -> bytes.
Variable block_size : nat.

(** HMAC pads a short key with zero bytes, so one more zero byte at the
    end of the key is not seen. *)
Lemma hmac_key_trailing_zero (K : bytes) :
  (length K < block_size)%nat ->
  hmac_key digest block_size (K ++ [x00]) = hmac_key digest block_size K.
Proof.
  intros Hlen. unfold hmac_key. rewrite length_app. simpl.
  destruct (Nat.ltb_spec block_size (length K + 1)); [lia|].
  destruct (Nat.ltb_spec block_size (length K)); [lia|].
  rewrite length_app. simpl. rewrite <- app_assoc. f_equal.
  replace (block_size - length K)%nat
    with (S (block_size - (length K + 1))) by lia.
  reflexivity.
Qed.

Lemma hmac_trailing_zero (K text : bytes) :
  (length K < block_size)%nat ->
  hmac digest block_size (K ++ [x00]) text = hmac digest block_size K text.
Proof. intros Hlen. unfold hmac. by rewrite hmac_key_trailing_zero. Qed.

Lemma pbkdf2_trailing_zero (P S : bytes) (c i : N) :
  (length P < block_size)%nat ->
  pbkdf2_F digest block_size (P ++ [x00]) S c i
  = pbkdf2_F digest block_size P S c i.
Proof.
  intros Hlen. unfold pbkdf2_F. rewrite hmac_trailing_zero by done.
  f_equal. apply N_iter_ext. intros TU. unfold pbkdf2_round.
  by rewrite hmac_trailing_zero.
Qed.

(** The derived key has the length of the digest. *)
Lemma pbkdf2_length (n : nat) (P S : bytes) (c i : N) :
  (forall m, length (digest m) = n) ->
  length (pbkdf2_F digest block_size P S c i) = n.
Proof.
  intros Hd. unfold pbkdf2_F.
  apply (N.iter_invariant (c - 1) _ (pbkdf2_round digest block_size P)
           (fun TU => length (fst TU) = n /\ length (snd TU) = n)).
  - intros [T U] [HT HU]. unfold pbkdf2_round, hmac, xor_bytes. simpl in *.
    rewrite length_zip_with, HT, Hd. split; [lia|done].
  - unfold hmac. simpl. by rewrite Hd.
Qed.
End PBKDF2Facts.

Lemma fold_digest_length (m : bytes) : length (fold_digest m) = 32%nat.
Proof. unfold fold_digest. by rewrite length_map, length_seq. Qed.

Lemma fold_hashlib_length (P S : bytes) (c : N) :
  length (pbkdf2_hmac (Hashlib:=fold_hashlib) sha3_256 P S c) = 32%nat.
Proof. apply pbkdf2_length, fold_digest_length. Qed.

(** Whatever the digest, a password and the same password followed by a
    NUL character have the same hash: each is verified by the hash of the
    other. *)
Lemma trailing_nul_verifies {DB} (digest : bytes -> bytes)
    (p : str) pw (w : World DB) :
  encode p = Ok pw ->
  (length pw < 136)%nat ->
  exists h w',
    hash_password (hashlib:=rfc8018 digest 136) p w = (Ok h, w') /\
    check_password (hashlib:=rfc8018 digest 136) (p ++ [0%N]) h = Ok true.
Proof.
  intros Henc Hlen. eexists _, _.
  split; [by apply hash_password_run|].
  assert (encode (p ++ [0%N]) = Ok (pw ++ [x00])) as Henc'.
  { clear Hlen. revert pw Henc. induction p as [|c p IH]; intros pw.
    - by intros [= <-].
    - simpl. destruct (encode_char c) as [b|e]; [|done].
      destruct (encode p) as [bs|e]; [|done].
      intros [= <-]. rewrite (IH bs eq_refl). by rewrite app_assoc. }
  rewrite (check_password_blob _ _ _ _ Henc' (next_salt_length w)).
  f_equal. apply bool_decide_eq_true_2. simpl.
  symmetry. by apply pbkdf2_trailing_zero.
Qed.

(** The hash of "pw" in the empty world. *)
Lemma check_password_of_hash_witness :
  check_password (hashlib:=fold_hashlib) [112; 119]%N
    (next_salt empty_world
     ++ pbkdf2_hmac (Hashlib:=fold_hashlib) sha3_256 [x70; x77]
          (next_salt empty_world) 100000)
  = Ok true.
Proof.
  eapply (check_password_of_hash (hashlib:=fold_hashlib)
            [112; 119]%N empty_world).
  apply hash_password_run. reflexivity.
Defined.

(** C4, as stated, fails: the password "a" followed by a NUL character is
    another password than "a", and the hash of "a" verifies it. *)
Lemma check_password_other_counterexample :
  [97; 0]%N <> [97]%N /\
  exists h w',
    hash_password (hashlib:=fold_hashlib) [97]%N empty_world = (Ok h, w') /\
    check_password (hashlib:=fold_hashlib) [97; 0]%N h = Ok true.
Proof.
  split; [discriminate|].
  apply (trailing_nul_verifies fold_digest [97]%N [x61] empty_world).
  - reflexivity.
  - simpl. lia.
Qed.

Lemma check_password_malformed_witness :
  check_password (hashlib:=fold_hashlib) [112; 119]%N (replicate 40 x00)
  = Ok false.
Proof.
  apply (check_password_malformed (hashlib:=fold_hashlib)
           [112; 119]%N [x70; x77] (replicate 40 x00)).
  - apply fold_hashlib_length.
  - reflexivity.
  - simpl. lia.
Defined.

(** C5, as stated, fails: against the empty blob and against a blob of a
    salt alone, verification answers false and raises nothing. *)
Lemma check_password_malformed_counterexample :
  check_password (hashlib:=fold_hashlib) [97]%N [] = Ok false /\
  check_password (hashlib:=fold_hashlib) [97]%N (replicate 32 x01) = Ok false.
Proof.
  split.
  - apply (check_password_short (hashlib:=fold_hashlib) [97]%N [x61]);
      [reflexivity|].
    rewrite fold_hashlib_length. simpl. lia.
  - apply (check_password_short (hashlib:=fold_hashlib) [97]%N [x61]);
      [reflexivity|].
    rewrite fold_hashlib_length. simpl. lia.
Qed.

Lemma hash_password_twice_witness :
  exists h1 h2 w1 w2,
    hash_password (hashlib:=fold_hashlib) [112; 119]%N empty_world = (Ok h1, w1) /\
    hash_password (hashlib:=fold_hashlib) [112; 119]%N w1 = (Ok h2, w2) /\
    take 32 h1 <> take 32 h2 /\
    h1 <> h2 /\
    check_password (hashlib:=fold_hashlib) [112; 119]%N h1 = Ok true /\
    check_password (hashlib:=fold_hashlib) [112; 119]%N h2 = Ok true.
Proof.
  eexists _, _, _, _.
  split; [apply hash_password_run; reflexivity|].
  split; [apply hash_password_run; reflexivity|].
  eapply (hash_password_twice (hashlib:=fold_hashlib)
            [112; 119]%N empty_world).
  - apply hash_password_run. reflexivity.
  - apply hash_password_run. reflexivity.
  - vm_compute. discriminate.
Defined.

(** * Further properties *)

(** ** Enumerations *)

(** The other side is never the same side, and the other side of the
    other side is the side itself. *)
Theorem invert_other_side (s : Side) :
  Side__invert__ s <> s /\ Side__invert__ (Side__invert__ s) = s.
Proof.
  split; [|apply invert_involutive].
  destruct s; discriminate.
Qed.

(** What [db_value] writes, [python_value] reads back: for each of the
    four enumerations, decoding the code of a member gives that member. *)
Theorem python_value_db_value :
  (forall m : Side,
     EnumField.python_value Side (Some (EnumField.db_value m)) = Ok m) /\
  (forall m : Winner,
     EnumField.python_value Winner (Some (EnumField.db_value m)) = Ok m) /\
  (forall m : Conclusion,
     EnumField.python_value Conclusion (Some (EnumField.db_value m)) = Ok m) /\
  (forall m : PieceType,
     EnumField.python_value PieceType (Some (EnumField.db_value m)) = Ok m).
Proof.
  split; [|split; [|split]]; intros m; destruct m; reflexivity.
Qed.

(** What [python_value] reads, [db_value] writes back: a raw value that
    decodes to a member is the code of that member, whatever the
    enumeration. *)
Theorem db_value_python_value {E} `{PyEnum E} (raw : option Z) (m : E) :
  EnumField.python_value E raw = Ok m ->
  raw = Some (EnumField.db_value m).
Proof.
  unfold EnumField.python_value, EnumField.super_python_value,
    EnumField.db_value.
  destruct raw as [n|]; [|discriminate].
  intros Hdec. apply enum_call_member in Hdec as [_ Hv]. by rewrite Hv.
Qed.

Lemma db_value_python_value_witness :
  Some 3 = Some (EnumField.db_value KNIGHT).
Proof.
  apply (db_value_python_value (E:=PieceType) (Some 3) KNIGHT). reflexivity.
Defined.

Lemma decodes_in (l : list Z) {E} `{PyEnum E} (code : Z) :
  value <$> members (E:=E) = l ->
  is_ok (EnumField.python_value E (Some code)) = true -> code ∈ l.
Proof.
  intros <-. unfold EnumField.python_value, EnumField.super_python_value.
  destruct (enum_call (Some code)) as [m|e] eqn:Hdec; [|discriminate].
  intros _. apply enum_call_member in Hdec as [Hin <-].
  apply list_elem_of_fmap. exists m. split; [done|]. by apply list_elem_of_In.
Qed.

(** Decoding succeeds on exactly the codes from 1 to the number of
    members: 1..2 for Side, 1..4 for Winner, 1..8 for Conclusion, 1..6 for
    PieceType. *)
Theorem python_value_succeeds_iff (code : Z) :
  (is_ok (EnumField.python_value Side (Some code)) = true
   <-> 1 <= code <= 2) /\
  (is_ok (EnumField.python_value Winner (Some code)) = true
   <-> 1 <= code <= 4) /\
  (is_ok (EnumField.python_value Conclusion (Some code)) = true
   <-> 1 <= code <= 8) /\
  (is_ok (EnumField.python_value PieceType (Some code)) = true
   <-> 1 <= code <= 6).
Proof.
  split; [|split; [|split]]; split.
  - intros Hin%(decodes_in [1; 2]); [|done].
    repeat (apply elem_of_cons in Hin as [->|Hin]; [lia|]).
    by apply elem_of_nil in Hin.
  - intros Hr.
    assert (code = 1 \/ code = 2) as [->| ->] by lia; reflexivity.
  - intros Hin%(decodes_in [1; 2; 3; 4]); [|done].
    repeat (apply elem_of_cons in Hin as [->|Hin]; [lia|]).
    by apply elem_of_nil in Hin.
  - intros Hr.
    assert (code = 1 \/ code = 2 \/ code = 3 \/ code = 4)
      as [->|[->|[->| ->]]] by lia; reflexivity.
  - intros Hin%(decodes_in [1; 2; 3; 4; 5; 6; 7; 8]); [|done].
    repeat (apply elem_of_cons in Hin as [->|Hin]; [lia|]).
    by apply elem_of_nil in Hin.
  - intros Hr.
    assert (code = 1 \/ code = 2 \/ code = 3 \/ code = 4 \/
            code = 5 \/ code = 6 \/ code = 7 \/ code = 8)
      as [->|[->|[->|[->|[->|[->|[->| ->]]]]]]] by lia; reflexivity.
  - intros Hin%(decodes_in [1; 2; 3; 4; 5; 6]); [|done].
    repeat (apply elem_of_cons in Hin as [->|Hin]; [lia|]).
    by apply elem_of_nil in Hin.
  - intros Hr.
    assert (code = 1 \/ code = 2 \/ code = 3 \/ code = 4 \/
            code = 5 \/ code = 6)
      as [->|[->|[->|[->|[->| ->]]]]] by lia; reflexivity.
Qed.

(** [db_value] stores a member of the enumeration of its field as a code
    from 1 to 8, and raises TypeError on every other value: a member of
    another enumeration, an integer, None. *)
Theorem db_value_any_checked (options : EnumClass) (instance : PyValue) :
  (class_of instance = Some options ->
   exists n, db_value_any options instance = Ok n /\ 1 <= n <= 8) /\
  (class_of instance <> Some options ->
   db_value_any options instance = Raise TypeError).
Proof.
  split.
  - intros Hc. destruct instance as [| |s|w|c|p]; simpl in Hc;
      try discriminate; injection Hc as <-.
    + destruct s; eexists; (split; [reflexivity|simpl; lia]).
    + destruct w; eexists; (split; [reflexivity|simpl; lia]).
    + destruct c; eexists; (split; [reflexivity|simpl; lia]).
    + destruct p; eexists; (split; [reflexivity|simpl; lia]).
  - intros Hc. destruct options, instance; simpl in *; congruence.
Qed.

Lemma db_value_any_checked_witness :
  (exists n, db_value_any Conclusion_class (PyConclusion STALEMATE) = Ok n
             /\ 1 <= n <= 8) /\
  db_value_any Side_class (PyWinner W_HOME) = Raise TypeError /\
  db_value_any Side_class (PyInt 1) = Raise TypeError.
Proof.
  split; [|split].
  - apply (db_value_any_checked Conclusion_class (PyConclusion STALEMATE)).
    reflexivity.
  - apply (db_value_any_checked Side_class (PyWinner W_HOME)). discriminate.
  - apply (db_value_any_checked Side_class (PyInt 1)). discriminate.
Defined.

(** ** Turn counter *)

Section TurnFrame.
Context {DB : Type} {persistence : Persistence DB}.

Lemma update_None l f (w : World DB) :
  heap w !! l = None -> update l f w = (Raise ReferenceError, w).
Proof.
  intros Hl. unfold update.
  erewrite bind_raise; [reflexivity|]. unfold deref. by rewrite Hl.
Qed.

(** A successful advance writes the advanced game to the database, takes
    the key the database answers as [id], and changes nothing else: the
    other fields of the game, the clock and the entropy source are as
    before. *)
Theorem iadd_writes_advanced_row l g (w w' : World DB) :
  heap w !! l = Some g ->
  TurnCounter__iadd__ {| game := l |} 1 w = (Ok tt, w') ->
  exists g' pk,
    heap w' !! l = Some g' /\
    db_save (advanced g) (db w) = Ok (pk, db w') /\
    id g' = Some pk /\
    host g' = host g /\ away g' = away g /\ mode g' = mode g /\
    starting_time g' = starting_time g /\
    time_per_turn g' = time_per_turn g /\
    home_time g' = home_time g /\ away_time g' = away_time g /\
    home_offering_draw g' = home_offering_draw g /\
    away_offering_draw g' = away_offering_draw g /\
    winner g' = winner g /\ conclusion_type g' = conclusion_type g /\
    opened_at g' = opened_at g /\ last_turn g' = last_turn g /\
    started_at g' = started_at g /\ ended_at g' = ended_at g /\
    turn_number g' = turn_number g /\
    ticks w' = ticks w /\ drawn w' = drawn w.
Proof.
  intros Hl. rewrite (iadd_one _ _ _ Hl).
  intros (pk & d & Hs & ->)%write_row_Ok_inv.
  exists (set_id (Some pk) (advanced g)), pk.
  split; [simpl; apply lookup_insert_eq|].
  split; [exact Hs|]. simpl. repeat split.
Qed.

(** An advance that the database refuses has already happened in memory:
    the exception of the database comes out, the game object holds the
    next turn number and the other side, and the database is as before. *)
Theorem iadd_failed_save l g (w : World DB) e :
  heap w !! l = Some g ->
  db_save (advanced g) (db w) = Raise e ->
  exists w' g',
    TurnCounter__iadd__ {| game := l |} 1 w = (Raise e, w') /\
    heap w' !! l = Some g' /\
    _turn_number g' = _turn_number g + 1 /\
    current_turn g' = Side__invert__ (current_turn g) /\
    db w' = db w.
Proof.
  intros Hl Hs. rewrite (iadd_one _ _ _ Hl).
  erewrite write_row_Raise by exact Hs.
  eexists _, (advanced g). split; [reflexivity|].
  split; [apply lookup_set_heap|]. repeat split.
Qed.

Lemma iadd_other_object self value l' (w : World DB) :
  l' <> game self ->
  heap (snd (TurnCounter__iadd__ self value w)) !! l' = heap w !! l'.
Proof.
  intros Hne. destruct self as [l]. simpl in Hne.
  destruct (decide (value = 1)) as [->|Hv].
  - destruct (heap w !! l) as [g|] eqn:Hl.
    + rewrite (iadd_one _ _ _ Hl). unfold write_row. simpl.
      destruct (db_save _ _) as [[pk d]|e]; simpl;
        by rewrite ?lookup_insert_ne by done.
    + unfold TurnCounter__iadd__. rewrite decide_False by lia. simpl.
      by erewrite bind_raise by (by apply update_None).
  - unfold TurnCounter__iadd__. by rewrite decide_True.
Qed.

(** A turn counter touches the game it is bound to and no other object:
    after any number of advances by any value, whether they succeed or
    fail, every other reference holds what it held. *)
Theorem advances_leave_other_objects self value l' (N : nat) (w : World DB) :
  l' <> game self ->
  heap (snd (times N (TurnCounter__iadd__ self value) w)) !! l' = heap w !! l'.
Proof.
  intros Hne. revert w. induction N as [|N IH]; intros w; [done|].
  rewrite times_S. unfold mbind, M_bind.
  pose proof (iadd_other_object self value l' w Hne) as Hstep.
  destruct (TurnCounter__iadd__ self value w) as [[[]|e] w1]; simpl in Hstep.
  - by rewrite IH.
  - done.
Qed.

Lemma advanced_in_step (g : Game) :
  in_step g = true -> in_step (advanced g) = true.
Proof.
  unfold in_step. intros Hs%bool_decide_eq_true.
  apply bool_decide_eq_true. simpl. rewrite Hs.
  replace (_turn_number g + 1) with (Z.succ (_turn_number g)) by lia.
  rewrite Z.odd_succ, <- Z.negb_odd.
  by destruct (Z.odd (_turn_number g)).
Qed.

(** Turn number and side to move stay in step: when HOME is to move on
    an odd turn number or AWAY on an even one, the same holds after any
    number of successful advances. *)
Theorem advances_keep_in_step l (N : nat) : forall (w w' : World DB) g,
  heap w !! l = Some g ->
  in_step g = true ->
  times N (TurnCounter__iadd__ {| game := l |} 1) w = (Ok tt, w') ->
  exists g', heap w' !! l = Some g' /\ in_step g' = true.
Proof.
  induction N as [|N IH]; intros w w' g Hl Hstep Hrun.
  - injection Hrun as <-. by exists g.
  - rewrite times_S in Hrun.
    apply bind_ok_inv in Hrun as ([] & w1 & Hone & Hrest).
    destruct (iadd_one_Ok _ _ _ _ Hl Hone) as [pk Hl1].
    apply (IH _ _ _ Hl1); [|done].
    by apply advanced_in_step in Hstep.
Qed.

End TurnFrame.

Lemma iadd_writes_advanced_row_witness :
  exists g' pk,
    heap (snd (TurnCounter__iadd__ {| game := scenario_game |} 1 playing_world))
      !! scenario_game = Some g' /\
    id g' = Some pk /\
    away g' = Some U2 /\
    home_time g' = Some 600.
Proof.
  destruct (iadd_writes_advanced_row scenario_game
              (set_id (Some 1)
                 (started U2 1001 1002 (constructed 0%nat scenario_kwargs 1000)))
              playing_world
              (snd (TurnCounter__iadd__ {| game := scenario_game |} 1
                      playing_world)))
    as (g' & pk & Hl & _ & Hid & _ & Haway & _ & _ & _ & Hhome & _).
  - vm_compute. reflexivity.
  - vm_compute. reflexivity.
  - exists g', pk. rewrite Haway, Hhome. repeat split; done.
Defined.

Lemma iadd_failed_save_witness :
  exists w' g',
    TurnCounter__iadd__ {| game := scenario_game |} 1 offline_world
      = (Raise (DatabaseError 1), w') /\
    heap w' !! scenario_game = Some g' /\
    _turn_number g' = 1 + 1 /\
    current_turn g' = Side__invert__ HOME /\
    db w' = offline.
Proof.
  apply (iadd_failed_save scenario_game
           (constructed 0%nat scenario_kwargs 1000) offline_world
           (DatabaseError 1)).
  - vm_compute. reflexivity.
  - reflexivity.
Defined.

Lemma advances_leave_other_objects_witness :
  heap (snd (times 3 (TurnCounter__iadd__ {| game := 1%nat |} 1)
               two_games_world)) !! scenario_game
  = heap two_games_world !! scenario_game.
Proof.
  apply (advances_leave_other_objects {| game := 1%nat |} 1 scenario_game 3
           two_games_world).
  discriminate.
Defined.

Lemma advances_keep_in_step_witness :
  exists g',
    heap (snd (times 5 (TurnCounter__iadd__ {| game := scenario_game |} 1)
                 playing_world)) !! scenario_game = Some g' /\
    in_step g' = true.
Proof.
  eapply (advances_keep_in_step scenario_game 5 playing_world).
  - vm_compute. reflexivity.
  - reflexivity.
  - vm_compute. reflexivity.
Defined.


(** ** Start transition and constructor *)

Section GameFrame.
Context {DB : Type} {persistence : Persistence DB}.

(** Starting a game changes away, started_at, last_turn and the id, and
    nothing else of the game: turn number, side to move, clocks, draw
    offers and outcome are as before.  The clock has been read twice, and
    no other object of the heap is touched. *)
Theorem start_game_frame l u g (w w' : World DB) :
  heap w !! l = Some g ->
  start_game l u w = (Ok tt, w') ->
  exists g',
    heap w' !! l = Some g' /\
    host g' = host g /\
    current_turn g' = current_turn g /\ _turn_number g' = _turn_number g /\
    mode g' = mode g /\ starting_time g' = starting_time g /\
    time_per_turn g' = time_per_turn g /\
    home_time g' = home_time g /\ away_time g' = away_time g /\
    home_offering_draw g' = home_offering_draw g /\
    away_offering_draw g' = away_offering_draw g /\
    winner g' = winner g /\ conclusion_type g' = conclusion_type g /\
    opened_at g' = opened_at g /\ ended_at g' = ended_at g /\
    turn_number g' = turn_number g /\
    ticks w' = S (S (ticks w)) /\
    forall l', l' <> l -> heap w' !! l' = heap w !! l'.
Proof.
  intros Hl. rewrite (start_game_run _ _ _ _ Hl).
  intros (pk & d & _ & ->)%write_row_Ok_inv.
  eexists. split; [simpl; apply lookup_insert_eq|].
  simpl. repeat split.
  intros l' Hne. by rewrite !lookup_insert_ne by done.
Qed.

(** A start that the database refuses has already happened in memory:
    the exception of the database comes out, the game object holds the
    away user and the two time stamps, and the database is as before. *)
Theorem start_game_failed_save l u g (w : World DB) e :
  heap w !! l = Some g ->
  db_save (started u (clock w (ticks w)) (clock w (S (ticks w))) g) (db w)
    = Raise e ->
  exists w' g',
    start_game l u w = (Raise e, w') /\
    heap w' !! l = Some g' /\
    away g' = Some u /\
    started_at g' = Some (clock w (ticks w)) /\
    last_turn g' = Some (clock w (S (ticks w))) /\
    id g' = id g /\
    db w' = db w.
Proof.
  intros Hl Hs. rewrite (start_game_run _ _ _ _ Hl).
  erewrite write_row_Raise by exact Hs.
  eexists _, _. split; [reflexivity|].
  split; [simpl; apply lookup_insert_eq|]. repeat split.
Qed.

End GameFrame.

Lemma start_game_frame_witness :
  exists g',
    heap playing_world !! scenario_game = Some g' /\
    _turn_number g' = 1 /\ current_turn g' = HOME /\
    home_time g' = Some 600.
Proof.
  destruct (start_game_frame scenario_game U2
              (constructed 0%nat scenario_kwargs 1000)
              scenario_world playing_world)
    as (g' & Hl & _ & Hc & Hn & _ & _ & _ & Hh & _).
  - vm_compute. reflexivity.
  - vm_compute. reflexivity.
  - exists g'. rewrite Hc, Hn, Hh. repeat split; done.
Defined.

Lemma start_game_failed_save_witness :
  exists w' g',
    start_game scenario_game U2 offline_world = (Raise (DatabaseError 1), w') /\
    heap w' !! scenario_game = Some g' /\
    away g' = Some U2 /\
    started_at g' = Some 1001 /\
    last_turn g' = Some 1002 /\
    id g' = None /\
    db w' = offline.
Proof.
  apply (start_game_failed_save scenario_game U2
           (constructed 0%nat scenario_kwargs 1000) offline_world
           (DatabaseError 1)).
  - vm_compute. reflexivity.
  - reflexivity.
Defined.

(** ** Credential hasher *)

Lemma encode_char_raises (c : N) e :
  encode_char c = Raise e ->
  e = UnicodeEncodeError /\ (0xD800 <= c <= 0xDFFF)%N.
Proof.
  unfold encode_char.
  destruct (N.ltb_spec c 0x80); [done|].
  destruct (N.ltb_spec c 0x800); [done|].
  destruct (N.leb_spec 0xD800 c); simpl.
  - destruct (N.leb_spec c 0xDFFF); simpl.
    + intros [= <-]. split; [done|lia].
    + by destruct (N.ltb_spec c 0x10000).
  - by destruct (N.ltb_spec c 0x10000).
Qed.

Lemma encode_char_surrogate (c : N) :
  (0xD800 <= c <= 0xDFFF)%N -> encode_char c = Raise UnicodeEncodeError.
Proof.
  intros [Hlo Hhi]. unfold encode_char.
  destruct (N.ltb_spec c 0x80); [lia|].
  destruct (N.ltb_spec c 0x800); [lia|].
  destruct (N.leb_spec 0xD800 c); [|lia].
  destruct (N.leb_spec c 0xDFFF); [done|lia].
Qed.

Lemma encode_surrogate (p : str) (c : N) :
  In c p -> (0xD800 <= c <= 0xDFFF)%N -> encode p = Raise UnicodeEncodeError.
Proof.
  intros Hin Hc. induction p as [|c' p IH]; [done|]. simpl.
  destruct (encode_char c') as [b|e] eqn:Hc'.
  - destruct Hin as [->|Hin].
    + by rewrite (encode_char_surrogate _ Hc) in Hc'.
    + by rewrite (IH Hin).
  - by apply encode_char_raises in Hc' as [-> _].
Qed.

Section CredentialFrame.
Context {DB : Type} {hashlib : Hashlib}.

(** With derived keys of 32 bytes, a hash is 64 bytes long and begins
    with the 32 bytes drawn from the entropy source; hashing consumes
    these 32 bytes and leaves heap, database and clock alone. *)
Theorem hash_password_layout (p : str) (w w' : World DB) h :
  (forall P S c, length (pbkdf2_hmac sha3_256 P S c) = 32%nat) ->
  hash_password p w = (Ok h, w') ->
  length h = 64%nat /\
  take 32 h = map (entropy w) (seq (drawn w) 32) /\
  drawn w' = (drawn w + 32)%nat /\
  heap w' = heap w /\ db w' = db w /\ ticks w' = ticks w.
Proof.
  intros Hkey (pw & _ & -> & ->)%hash_password_Ok.
  split; [rewrite length_app, next_salt_length, Hkey; lia|].
  split; [by rewrite take_app_length' by (by rewrite next_salt_length)|].
  repeat split.
Qed.

(** With derived keys of 32 bytes, only a blob of exactly 64 bytes can
    verify a password: a shorter and a longer one are both rejected. *)
Theorem check_password_accepts_64 (p : str) (hashed : bytes) :
  (forall P S c, length (pbkdf2_hmac sha3_256 P S c) = 32%nat) ->
  check_password p hashed = Ok true ->
  length hashed = 64%nat.
Proof.
  intros Hkey. unfold check_password, slice_to, slice_from.
  destruct (encode p) as [pw|e]; [|discriminate]. simpl.
  intros [= Heq%bool_decide_eq_true].
  apply (f_equal length) in Heq. rewrite length_drop, Hkey in Heq. lia.
Qed.

(** A hash whose key part has been altered no longer verifies the
    password it was made for. *)
Theorem check_password_altered_key (p : str) (w w' : World DB) h key' :
  hash_password p w = (Ok h, w') ->
  key' <> drop 32 h ->
  check_password p (take 32 h ++ key') = Ok false.
Proof.
  intros (pw & Henc & -> & _)%hash_password_Ok.
  pose proof (next_salt_length w) as Hlen.
  rewrite take_app_length', drop_app_length' by done.
  intros Hne. rewrite (check_password_blob _ _ _ _ Henc Hlen).
  by rewrite bool_decide_eq_false_2.
Qed.

(** A password that contains a surrogate code point cannot be encoded:
    hashing it raises UnicodeEncodeError after the salt has been drawn,
    and verifying it raises UnicodeEncodeError against every blob; it is
    never answered with false. *)
Theorem surrogate_password_raises (p : str) (c : N) (w : World DB) :
  In c p ->
  (0xD800 <= c <= 0xDFFF)%N ->
  hash_password p w
    = (Raise UnicodeEncodeError, set_drawn (drawn w + 32)%nat w) /\
  forall hashed, check_password p hashed = Raise UnicodeEncodeError.
Proof.
  intros Hin Hc. pose proof (encode_surrogate _ _ Hin Hc) as Henc.
  split; [by apply hash_password_unencodable|].
  intros hashed. unfold check_password. by rewrite Henc.
Qed.

(** Setting the password of a user and comparing the password property
    with the same password answers true; the setter changes the password
    hash and no other field of the user. *)
Theorem password_setter_then_eq (u u' : User) (p : str) (w w' : World DB) :
  User_password_setter u p w = (Ok u', w') ->
  HashedPassword__eq__ (User_password u') p = Ok true /\
  user_id u' = user_id u /\ username u' = username u /\
  email u' = email u /\ email_verified u' = email_verified u /\
  elo u' = elo u /\ avatar u' = avatar u /\ created_at u' = created_at u.
Proof.
  unfold User_password_setter.
  intros (h & w1 & Hh & Hret)%bind_ok_inv.
  injection Hret as <- <-.
  apply hash_password_Ok in Hh as (pw & Henc & -> & _).
  split; [|repeat split].
  unfold HashedPassword__eq__, User_password.
  cbn [hashed_password password_hash].
  rewrite (check_password_blob _ _ _ _ Henc (next_salt_length _)).
  by rewrite bool_decide_eq_true_2.
Qed.
End CredentialFrame.

Lemma hash_password_layout_witness :
  length sample_hash = 64%nat /\
  take 32 sample_hash = map (entropy empty_world) (seq 0 32).
Proof.
  destruct (hash_password_layout (hashlib:=fold_hashlib) sample_password
              empty_world (set_drawn 32 empty_world) sample_hash)
    as (Hlen & Hsalt & _).
  - apply fold_hashlib_length.
  - apply hash_password_run. reflexivity.
  - split; [exact Hlen|exact Hsalt].
Defined.

Lemma sample_hash_verifies :
  check_password (hashlib:=fold_hashlib) sample_password sample_hash = Ok true.
Proof.
  unfold sample_hash.
  refine (eq_trans (check_password_blob sample_password [x70; x77] _ _ eq_refl
                      (next_salt_length empty_world)) _).
  exact (f_equal Ok (bool_decide_eq_true_2 _ eq_refl)).
Qed.

Lemma check_password_accepts_64_witness : length sample_hash = 64%nat.
Proof.
  exact (check_password_accepts_64 (hashlib:=fold_hashlib) sample_password
           sample_hash fold_hashlib_length sample_hash_verifies).
Defined.

Lemma sample_hash_key_not_empty : [] <> drop 32 sample_hash.
Proof.
  intros Heq.
  pose proof (drop_app_length' (next_salt empty_world)
                (pbkdf2_hmac (Hashlib:=fold_hashlib) sha3_256 [x70; x77]
                   (next_salt empty_world) 100000)
                32 (eq_sym (next_salt_length empty_world))) as Hd.
  unfold sample_hash in Heq. rewrite Hd in Heq.
  pose proof (fold_hashlib_length [x70; x77] (next_salt empty_world) 100000)
    as Hl.
  rewrite <- Heq in Hl. discriminate Hl.
Qed.

Lemma check_password_altered_key_witness :
  check_password (hashlib:=fold_hashlib) sample_password
    (take 32 sample_hash ++ []) = Ok false.
Proof.
  exact (check_password_altered_key (hashlib:=fold_hashlib) sample_password
           empty_world (set_drawn (drawn empty_world + 32) empty_world)
           sample_hash []
           (hash_password_run sample_password [x70; x77] empty_world eq_refl)
           sample_hash_key_not_empty).
Defined.

Lemma surrogate_password_raises_witness :
  hash_password (hashlib:=fold_hashlib) [112; 0xD800]%N empty_world
    = (Raise UnicodeEncodeError, set_drawn (0 + 32)%nat empty_world) /\
  forall hashed,
    check_password (hashlib:=fold_hashlib) [112; 0xD800]%N hashed
    = Raise UnicodeEncodeError.
Proof.
  apply (surrogate_password_raises (hashlib:=fold_hashlib)
           [112; 0xD800]%N 0xD800%N empty_world).
  - right. left. reflexivity.
  - lia.
Defined.

Lemma password_setter_sample :
  User_password_setter (hashlib:=fold_hashlib) U1 sample_password empty_world
  = (Ok hashed_U1, set_drawn (drawn empty_world + 32) empty_world).
Proof.
  exact (bind_ok _ _ _ _ _
           (hash_password_run sample_password [x70; x77] empty_world eq_refl)).
Qed.

Lemma password_setter_then_eq_witness :
  HashedPassword__eq__ (hashlib:=fold_hashlib) (User_password hashed_U1)
    sample_password = Ok true /\
  username hashed_U1 = username U1 /\ elo hashed_U1 = 1000.
Proof.
  destruct (password_setter_then_eq (hashlib:=fold_hashlib) U1 hashed_U1
              sample_password empty_world
              (set_drawn (drawn empty_world + 32) empty_world)
              password_setter_sample)
    as (Heq & _ & Hname & _ & _ & Helo & _).
  split; [exact Heq|]. split; [exact Hname|exact Helo].
Defined.
